(** * convert-time-table.js: wide time sheet to long billing table

    A shallow embedding of [src/convert-time-table.js] and the properties of
    its transform [transposeData] and of the table [processCsv] hands to the
    CSV writer.

    The file has three parts: the fragment of ECMAScript the script relies on
    (strings, Numbers, [parseFloat], property access on plain objects), the
    script itself with the events of its read stream, and the theorems:
    first the numbered claims C1 to C10, then further properties X1 to X17
    of the transform and of [processCsv]. *)

From Stdlib Require Import ZArith NArith String Ascii DecimalString List Lia.
From Stdlib Require Import Floats.SpecFloat.
From stdpp Require Import base list numbers strings sorting.

(** ** The ECMAScript fragment *)

Module JS.
Local Open Scope N_scope.

(** A JS string is a sequence of UTF-16 code units. *)
Definition jsstring := list N.

(** [str] embeds a literal written with one-byte characters. *)
Definition str (s : string) : jsstring :=
  List.map N_of_ascii (list_ascii_of_string s).

(** A Number is an IEEE 754 binary64 value. *)
Definition Number := spec_float.
Definition prec : Z := 53.
Definition emax : Z := 1024.

Definition NaN : Number := S754_nan.
Definition Infinity : Number := S754_infinity false.
Definition zero : Number := S754_zero false.

(** [isNaN x] for a Number argument. *)
Definition isNaN (x : Number) : bool :=
  match x with S754_nan => true | _ => false end.

(** [x > y] on Numbers: false as soon as one side is NaN. *)
Definition gt (x y : Number) : bool := SFltb y x.

(** [Number.isFinite]. *)
Definition isFinite (x : Number) : bool :=
  match x with S754_zero _ | S754_finite _ _ _ => true | _ => false end.

(** The Number for an integer literal of the source or of a test. *)
Definition of_Z (z : Z) : Number := binary_normalize prec emax z 0 false.

(** *** parseFloat (ECMA-262, 19.2.4) *)

(** WhiteSpace and LineTerminator code units, as stripped by TrimString:
    TAB, LF, VT, FF, CR, SP, NBSP, the other space separators of Unicode, LS,
    PS and ZWNBSP. *)
Definition isWhiteSpace (c : N) : bool :=
  existsb (N.eqb c)
    [9; 10; 11; 12; 13; 32; 160; 5760; 8232; 8233; 8239; 8287; 12288; 65279]
  || ((8192 <=? c) && (c <=? 8202)).

Fixpoint TrimStart (s : jsstring) : jsstring :=
  match s with
  | c :: s' => if isWhiteSpace c then TrimStart s' else s
  | [] => []
  end.

Definition isDecimalDigit (c : N) : bool := (48 <=? c) && (c <=? 57).

(** The longest run of decimal digits at the head of [s] (their values), and
    what follows it. *)
Fixpoint DecimalDigits (s : jsstring) : list N * jsstring :=
  match s with
  | c :: s' =>
      if isDecimalDigit c
      then let '(ds, r) := DecimalDigits s' in (c - 48 :: ds, r)
      else ([], s)
  | [] => ([], [])
  end.

(** The mathematical value of a run of digits. *)
Definition MV (ds : list N) : N :=
  fold_left (fun acc d => 10 * acc + d) ds 0.

(** An optional [+] or [-] at the head of [s]: whether the sign is [-], and
    what follows the sign. *)
Definition Sign (s : jsstring) : bool * jsstring :=
  match s with
  | c :: r =>
      if c =? 43 then (false, r)
      else if c =? 45 then (true, r)
      else (false, s)
  | [] => (false, [])
  end.

(** ExponentPart, optional: the exponent when [s] starts with [e] or [E], an
    optional sign and at least one digit; 0 when no exponent part starts
    [s], in which case the literal ends before it. *)
Definition ExponentPart (s : jsstring) : Z :=
  match s with
  | c :: s1 =>
      if (c =? 101) || (c =? 69) then
        let '(neg, s2) := Sign s1 in
        match fst (DecimalDigits s2) with
        | [] => 0%Z
        | ds => if neg then (- Z.of_N (MV ds))%Z else Z.of_N (MV ds)
        end
      else 0%Z
  | [] => 0%Z
  end.

(** The digits after a decimal point at the head of [s], if there is one, and
    what follows them. *)
Definition FractionPart (s : jsstring) : list N * jsstring :=
  match s with
  | c :: s' => if c =? 46 then DecimalDigits s' else ([], s)
  | [] => ([], [])
  end.

(** What the longest prefix matching StrUnsignedDecimalLiteral denotes:
    [Infinity], or the decimal [m * 10 ^ e]. *)
Inductive literal :=
  | LitInfinity
  | LitDecimal (m : N) (e : Z).

Fixpoint startsWith (p s : jsstring) : bool :=
  match p, s with
  | [], _ => true
  | a :: p', b :: s' => (a =? b) && startsWith p' s'
  | _ :: _, [] => false
  end.

(** [Infinity], or digits with an optional point and fraction, or a point and
    a fraction; at least one digit on one side of the point. An exponent part
    may follow. *)
Definition StrUnsignedDecimalLiteral (s : jsstring) : option literal :=
  if startsWith (str "Infinity") s then Some LitInfinity else
  let '(ip, s1) := DecimalDigits s in
  let '(fp, s2) := FractionPart s1 in
  match ip ++ fp with
  | [] => None
  | ds => Some (LitDecimal (MV ds) (ExponentPart s2 - Z.of_nat (length fp)))
  end.

(** The Number value of [(-1)^neg * m * 10 ^ e]: the nearest binary64, ties
    to even, an overflow giving an infinity and an underflow a zero of the
    sign of the literal. (ECMA-262 lets an engine round a literal of more
    than 20 significant digits from its first 20; this is the exact rounding,
    which V8 implements.) *)
Definition Number_of_decimal (neg : bool) (m : N) (e : Z) : Number :=
  match m with
  | N0 => S754_zero neg
  | Npos p =>
      match e with
      | Zneg k =>
          let '(q, e', l) :=
            SFdiv_core_binary prec emax (Zpos p) 0 (Z.pow_pos 10 k) 0 in
          binary_round_aux prec emax neg q e' l
      | _ => binary_round prec emax neg (p * Z.to_pos (10 ^ e)) 0
      end
  end.

Definition StringNumericValue (neg : bool) (l : literal) : Number :=
  match l with
  | LitInfinity => S754_infinity neg
  | LitDecimal m e => Number_of_decimal neg m e
  end.

(** [parseFloat] on a string: trim leading white space, read an optional
    sign, take the longest prefix that is a decimal literal. *)
Definition parseFloatString (inputString : jsstring) : Number :=
  let trimmed := TrimStart inputString in
  let '(neg, body) := Sign trimmed in
  match StrUnsignedDecimalLiteral body with
  | None => NaN
  | Some l => StringNumericValue neg l
  end.

End JS.

(** *** Plain objects and property access *)

Module Obj.
Import JS.

(** A row object as csv-parser builds it: its own enumerable properties, keyed
    by strings and holding strings, listed in the order [Object.keys]
    reports them. Keys are pairwise distinct. *)
Definition Object := list (jsstring * jsstring).

Definition keys (o : Object) : list jsstring := o.*1.

Fixpoint getOwnProperty (o : Object) (k : jsstring) : option jsstring :=
  match o with
  | (k', v) :: o' => if decide (k' = k) then Some v else getOwnProperty o' k
  | [] => None
  end.

(** What [o[k]] can evaluate to on such an object. *)
Inductive value :=
  | Undefined
  | Str (s : jsstring)
  | NativeFunction (name : jsstring)
  | PrototypeObject.

(** The members of [Object.prototype], which [o[k]] reaches when [o] has no
    own property [k]. *)
Definition prototypeMethods : list jsstring :=
  List.map str
    ["hasOwnProperty"; "isPrototypeOf"; "propertyIsEnumerable";
     "toLocaleString"; "toString"; "valueOf"; "__defineGetter__";
     "__defineSetter__"; "__lookupGetter__"; "__lookupSetter__"]%string.

Definition getPrototypeProperty (k : jsstring) : value :=
  if decide (k = str "constructor") then NativeFunction (str "Object")
  else if decide (k = str "__proto__") then PrototypeObject
  else if decide (k ∈ prototypeMethods) then NativeFunction k
  else Undefined.

(** [o[k]] *)
Definition Get (o : Object) (k : jsstring) : value :=
  match getOwnProperty o k with
  | Some s => Str s
  | None => getPrototypeProperty k
  end.

Definition ToString (v : value) : jsstring :=
  match v with
  | Undefined => str "undefined"
  | Str s => s
  | NativeFunction name =>
      str "function " ++ name ++ str "() { [native code] }"
  | PrototypeObject => str "[object Object]"
  end.

Definition parseFloat (v : value) : Number := parseFloatString (ToString v).

End Obj.

(** *** Console output *)

(** Code that logs is a computation returning the lines it printed and its
    result. *)
Module Console.

Definition M (A : Type) : Type := list string * A.

Definition ret {A} (a : A) : M A := ([], a).

Definition bind {A B} (m : M A) (k : A -> M B) : M B :=
  let '(out1, a) := m in
  let '(out2, b) := k a in
  (out1 ++ out2, b).

Definition log (line : string) : M unit := ([line], tt).

Definition output {A} (m : M A) : list string := fst m.
Definition result {A} (m : M A) : A := snd m.

End Console.

#[global] Instance console_ret : MRet Console.M := @Console.ret.
#[global] Instance console_bind : MBind Console.M :=
  fun A B k m => Console.bind m k.

(** ** The script *)

Module ConvertTimeTable.
Import JS Obj.

(** An element of the array [transposeData] returns:
    [{ Date, Ticket, 'Time Spent' }]. *)
Record OutputRecord := {
  Date : jsstring;
  Ticket : value;
  TimeSpent : Number
}.

Definition ticketHeader : jsstring := str "Ticket".

(** [transposed.push(x)] *)
Definition push {A} (transposed : list A) (x : A) : list A := transposed ++ [x].

(** The body of the inner loop, lines 44-55: one date column of one row. *)
Definition visitCell (row : Object) (ticketName : value)
    (transposed : list OutputRecord) (date : jsstring) : list OutputRecord :=
  let timeSpent := Get row date in
  let parsedTimeSpent := parseFloat timeSpent in
  if negb (isNaN parsedTimeSpent) && gt parsedTimeSpent zero
  then push transposed
         {| Date := date; Ticket := ticketName; TimeSpent := parsedTimeSpent |}
  else transposed.

(** The body of the outer loop, lines 40-56: one row. *)
Definition visitRow (dateHeaders : list jsstring)
    (transposed : list OutputRecord) (row : Object) : list OutputRecord :=
  let ticketName := Get row ticketHeader in
  fold_left (visitCell row ticketName) dateHeaders transposed.

(** Lines 30-36: the date headers, from the first row. *)
Definition dateHeadersOf (first : Object) : list jsstring :=
  let allHeaders := keys first in
  filter (fun header => header ≠ ticketHeader) allHeaders.

(** [transposeData], lines 18-59. The function is [async] but never awaits:
    the promise it returns is resolved with the array computed here. *)
Definition transposeData (data : list Object) : Console.M (list OutputRecord) :=
  let transposed := [] in
  match data with
  | [] =>
      Console.log "No data found in the input CSV." ;;
      mret transposed
  | first :: _ =>
      let dateHeaders := dateHeadersOf first in
      mret (fold_left (visitRow dateHeaders) data transposed)
  end.

(** The array [transposeData] resolves to. *)
Definition transposed (data : list Object) : list OutputRecord :=
  Console.result (transposeData data).

(** *** processCsv *)

(** A column of the writer's configuration: [{ id, title }]. *)
Record column := { id : jsstring; title : jsstring }.

(** The [header] option given to [createObjectCsvWriter], lines 85-89. *)
Definition header : list column :=
  [ {| id := str "Date"; title := str "Date" |};
    {| id := str "Ticket"; title := str "Ticket" |};
    {| id := str "Time Spent"; title := str "Time Spent" |} ].

(** The file name joined to the script's directory, line 9. *)
Definition outputFileName : string := "output.csv".

(** A value the writer finds in a record. *)
Inductive field :=
  | OfValue (v : value)
  | OfNumber (n : Number).

(** [record[id]] on an [OutputRecord]. *)
Definition getField (record : OutputRecord) (k : jsstring) : field :=
  if decide (k = str "Date") then OfValue (Str (Date record))
  else if decide (k = str "Ticket") then OfValue (Ticket record)
  else if decide (k = str "Time Spent") then OfNumber (TimeSpent record)
  else OfValue (getPrototypeProperty k).

(** The table an object CSV writer produces (csv-writer is a dependency of the
    script, not part of it): the line of titles, then for each record, in the
    order given, the fields [record[id]] of the configured columns. Quoting
    and the rendering of the fields as text are left to the library. *)
Record table := {
  titles : list jsstring;
  lines : list (list field)
}.

Definition writeRecords (header : list column) (records : list OutputRecord)
    : table :=
  {| titles := List.map title header;
     lines := List.map (fun record =>
                List.map (fun c => getField record (id c)) header) records |}.

Definition show_nat (n : nat) : string :=
  NilEmpty.string_of_uint (Nat.to_uint n).

(** The handler of the stream's ['data'] event, lines 70-73. *)
Definition onData (records : list Object) (row : Object) : list Object :=
  push records row.

(** The handler of the stream's ['end'] event, lines 74-93, up to the call of
    [writeRecords], whose promise only decides which line is logged last. *)
Definition onEnd (records : list Object) : Console.M table :=
  Console.log "Finished reading input CSV." ;;
  Console.log ("Found " +:+ show_nat (length records) +:+ " records.") ;;
  transposedData ← transposeData records ;
  Console.log ("Transposed into " +:+ show_nat (length transposedData)
               +:+ " billing entries.") ;;
  mret (writeRecords header transposedData).

(** [processCsv] on a stream that delivers [rows], one ['data'] event each,
    and then ends. (A stream that fails instead only logs the error: ['end']
    is not delivered and nothing is written.) *)
Definition processCsv (rows : list Object) : Console.M table :=
  let records := [] in
  onEnd (fold_left onData rows records).

End ConvertTimeTable.

(** ** The read stream *)

(** [processCsv] registers three handlers on the stream of parsed rows and
    returns; what happens next is decided by the events the stream
    delivers. *)
Module Stream.
Import JS Obj ConvertTimeTable.

(** An event of the stream, lines 70, 74 and 101. *)
Inductive event :=
  | DataEvent (row : Object)
  | EndEvent
  | ErrorEvent (err : string).

(** What a handler does to the outside. *)
Inductive effect :=
  | Log (line : string)
  | LogError (label err : string)
  | Write (t : table).

(** The handler of ['error'], lines 101-103. *)
Definition onError (err : string) : list effect :=
  [LogError "Error reading input CSV:" err].

(** One event, on the array [records] the handlers share: the array after
    it, and the effects of its handler. The handler of ['end'] calls
    [transposeData] before it awaits, so the table it writes is fixed by the
    rows pushed up to the event; its later effects are listed with it. *)
Definition dispatch (records : list Object) (ev : event)
    : list Object * list effect :=
  match ev with
  | DataEvent row => (onData records row, [])
  | EndEvent =>
      let done := onEnd records in
      (records, (Log <$> Console.output done) ++ [Write (Console.result done)])
  | ErrorEvent err => (records, onError err)
  end.

Fixpoint deliver (records : list Object) (events : list event)
    : list effect :=
  match events with
  | [] => []
  | ev :: events' =>
      let '(records', effects) := dispatch records ev in
      effects ++ deliver records' events'
  end.

(** The effects of the script on a stream that delivers [events]: [records]
    starts empty, line 65. *)
Definition run (events : list event) : list effect := deliver [] events.

(** The rows among the events, and the tables among the effects. *)
Definition delivered (events : list event) : list Object :=
  omap (λ ev, match ev with DataEvent row => Some row | _ => None end) events.

Definition written (effects : list effect) : list table :=
  omap (λ e, match e with Write t => Some t | _ => None end) effects.

End Stream.

(** ** Sample inputs *)

Module Samples.
Import JS Obj ConvertTimeTable.

(** A row from its header and cell texts. *)
Definition mkRow (cells : list (string * string)) : Object :=
  List.map (fun '(k, v) => (str k, str v)) cells.

(** A time sheet of two rows: ticket T1 took 2 hours on the first day and
    none on the second, T2 took 3.5 hours on the second. *)
Definition rowT1 : Object :=
  mkRow [("Ticket", "T1"); ("2025-05-01", "2"); ("2025-05-02", "0")]%string.
Definition rowT2 : Object :=
  mkRow [("Ticket", "T2"); ("2025-05-01", ""); ("2025-05-02", "3.5")]%string.
Definition sheet : list Object := [rowT1; rowT2].

(** A row with loosely typed cells, and one that lacks the second day. *)
Definition rowLoose : Object :=
  mkRow [("Ticket", "T3"); ("2025-05-01", "2h"); ("2025-05-02", "abc")]%string.
Definition rowShort : Object :=
  mkRow [("Ticket", "T4"); ("2025-05-01", "1")]%string.

(** A row whose cell reads [Infinity], and one whose cell overflows. *)
Definition rowInfinity : Object :=
  mkRow [("Ticket", "T5"); ("2025-05-01", "Infinity")]%string.
Definition rowHuge : Object :=
  mkRow [("Ticket", "T6"); ("2025-05-01", "1e999")]%string.

(** A row with an empty ticket name. *)
Definition rowAnonymous : Object :=
  mkRow [("Ticket", ""); ("2025-05-01", "4"); ("2025-05-02", "1.5")]%string.

(** The cells of [rowT2] under a longer header in another order. *)
Definition rowT2wide : Object :=
  mkRow [("2025-05-02", "3.5"); ("2025-06-01", "9"); ("Ticket", "T2");
         ("2025-05-01", "")]%string.

(** A row whose ticket column stands between the days, and one without a
    ticket column. *)
Definition rowTicketInside : Object :=
  mkRow [("2025-05-01", "1"); ("Ticket", "T8"); ("2025-05-02", "2")]%string.

(** Cells that are blank, negative, zero, padded, or plain text. *)
Definition rowOdd : Object :=
  mkRow [("Ticket", "T9"); ("a", "   "); ("b", " -2.5"); ("c", "000");
         ("d", "  12"); ("e", "12"); ("f", "n/a"); ("g", "0.00");
         ("h", "12 hours")]%string.

Definition day1 : jsstring := str "2025-05-01".
Definition day2 : jsstring := str "2025-05-02".

End Samples.

(** ** Cells *)

(** Vocabulary for the statements: a cell is a row with a date header, a
    position is the index of a row with the index of a date header. *)
Module Cells.
Import JS Obj ConvertTimeTable.

(** The record a cell gives when it is emitted. *)
Definition recordOf (cell : Object * jsstring) : OutputRecord :=
  {| Date := cell.2;
     Ticket := Get cell.1 ticketHeader;
     TimeSpent := parseFloat (Get cell.1 cell.2) |}.

(** The guard of line 49, on a cell. *)
Definition accepted (cell : Object * jsstring) : Prop :=
  isNaN (parseFloat (Get cell.1 cell.2)) = false
  ∧ gt (parseFloat (Get cell.1 cell.2)) zero = true.

#[global] Instance accepted_dec cell : Decision (accepted cell).
Proof. unfold accepted. apply _. Defined.

(** The order in which the nested loops visit positions: by row, then by
    date header. *)
Definition visitedBefore (p q : nat * nat) : Prop :=
  p.1 < q.1 ∨ (p.1 = q.1 ∧ p.2 < q.2).

End Cells.

(** ** Properties *)

Import JS Obj ConvertTimeTable Cells.

(** *** The scenarios of the time sheet *)

(** Two hours and three and a half hours are kept; the cell reading [0] and
    the empty cell are dropped. *)
Example scenario_sheet :
  transposeData Samples.sheet =
    ([], [{| Date := Samples.day1; Ticket := Str (str "T1");
             TimeSpent := of_Z 2 |};
          {| Date := Samples.day2; Ticket := Str (str "T2");
             TimeSpent := Number_of_decimal false 35 (-1) |}]).
Proof. reflexivity. Qed.

(** A negative cell is dropped, and so is a positive literal that rounds to
    zero; white space before the number is skipped. *)
Example scenario_signs :
  transposed [Samples.mkRow [("Ticket", "T7"); ("a", "-1"); ("b", "1e-400");
                             ("c", "  7")]%string] =
    [{| Date := str "c"; Ticket := Str (str "T7"); TimeSpent := of_Z 7 |}].
Proof. reflexivity. Qed.

(** *** The loops only ever push *)

Lemma guard_spec (x : Number) :
  negb (isNaN x) && gt x zero = true ↔ isNaN x = false ∧ gt x zero = true.
Proof.
  rewrite andb_true_iff, negb_true_iff. reflexivity.
Qed.

Lemma visitCell_cases row ticketName acc date :
  let parsed := parseFloat (Get row date) in
  (isNaN parsed = false ∧ gt parsed zero = true ∧
   visitCell row ticketName acc date =
     acc ++ [{| Date := date; Ticket := ticketName; TimeSpent := parsed |}])
  ∨ (¬ (isNaN parsed = false ∧ gt parsed zero = true) ∧
     visitCell row ticketName acc date = acc).
Proof.
  intros parsed. unfold visitCell. fold parsed.
  destruct (negb (isNaN parsed) && gt parsed zero) eqn:Hguard.
  - left. apply guard_spec in Hguard. destruct Hguard. auto.
  - right. split; [|reflexivity].
    intros Hok. apply guard_spec in Hok. congruence.
Qed.

Lemma visitCell_push row ticketName acc date :
  visitCell row ticketName acc date = acc ++ visitCell row ticketName [] date.
Proof.
  unfold visitCell, push.
  destruct (negb _ && _); [reflexivity | by rewrite app_nil_r].
Qed.

Lemma visitCells_push row ticketName dates acc :
  fold_left (visitCell row ticketName) dates acc =
  acc ++ fold_left (visitCell row ticketName) dates [].
Proof.
  revert acc. induction dates as [|date dates IH]; intros acc; simpl.
  - by rewrite app_nil_r.
  - rewrite IH, (IH (visitCell _ _ [] _)), (visitCell_push _ _ acc).
    by rewrite app_assoc.
Qed.

Lemma visitCells_app row ticketName dates1 dates2 acc :
  fold_left (visitCell row ticketName) (dates1 ++ dates2) acc =
  fold_left (visitCell row ticketName) dates1 acc
  ++ fold_left (visitCell row ticketName) dates2 [].
Proof. by rewrite fold_left_app, visitCells_push. Qed.

Lemma visitRow_push dateHeaders acc row :
  visitRow dateHeaders acc row = acc ++ visitRow dateHeaders [] row.
Proof. unfold visitRow. apply visitCells_push. Qed.

Lemma visitRows_push dateHeaders rows acc :
  fold_left (visitRow dateHeaders) rows acc =
  acc ++ fold_left (visitRow dateHeaders) rows [].
Proof.
  revert acc. induction rows as [|row rows IH]; intros acc; simpl.
  - by rewrite app_nil_r.
  - rewrite IH, (IH (visitRow _ [] _)), (visitRow_push _ acc).
    by rewrite app_assoc.
Qed.

Lemma visitRows_app dateHeaders rows1 rows2 acc :
  fold_left (visitRow dateHeaders) (rows1 ++ rows2) acc =
  fold_left (visitRow dateHeaders) rows1 acc
  ++ fold_left (visitRow dateHeaders) rows2 [].
Proof. by rewrite fold_left_app, visitRows_push. Qed.

Lemma visitRows_cons dateHeaders row rows :
  fold_left (visitRow dateHeaders) (row :: rows) [] =
  visitRow dateHeaders [] row ++ fold_left (visitRow dateHeaders) rows [].
Proof. simpl. apply visitRows_push. Qed.

Lemma visitCells_cons row ticketName date dates :
  fold_left (visitCell row ticketName) (date :: dates) [] =
  visitCell row ticketName [] date
  ++ fold_left (visitCell row ticketName) dates [].
Proof. simpl. apply visitCells_push. Qed.

(** On a non-empty input the result is the outer loop run over all rows with
    the date headers of the first. *)
Lemma transposed_head data first :
  head data = Some first →
  transposed data = fold_left (visitRow (dateHeadersOf first)) data [].
Proof.
  destruct data as [|row rest]; intros Hhead; [discriminate|].
  injection Hhead as ->. reflexivity.
Qed.

(** *** C1: which cells are emitted *)

(** C1. Take any cell of the input: the row [row] standing between the rows
    [pre] and [post], and the date header [date] standing between the date
    headers [dpre] and [dpost]. The output is what the cells before it emit,
    then what this cell emits, then what the cells after it emit; and this
    cell emits its record exactly when [parseFloat] of the cell is not NaN and
    is greater than 0, and nothing exactly when that fails. *)
Theorem C1_cell_emitted_iff_parsed_positive
    (pre post : list Object) (first row : Object)
    (dpre dpost : list jsstring) (date : jsstring) :
  head (pre ++ row :: post) = Some first →
  dateHeadersOf first = dpre ++ date :: dpost →
  let ticketName := Get row ticketHeader in
  let parsed := parseFloat (Get row date) in
  ∃ cell : list OutputRecord,
    transposed (pre ++ row :: post) =
      fold_left (visitRow (dateHeadersOf first)) pre []
      ++ fold_left (visitCell row ticketName) dpre []
      ++ cell
      ++ fold_left (visitCell row ticketName) dpost []
      ++ fold_left (visitRow (dateHeadersOf first)) post []
    ∧ (cell = [{| Date := date; Ticket := ticketName; TimeSpent := parsed |}]
       ↔ isNaN parsed = false ∧ gt parsed zero = true)
    ∧ (cell = [] ↔ ¬ (isNaN parsed = false ∧ gt parsed zero = true)).
Proof.
  intros Hfirst Hdates ticketName parsed.
  exists (visitCell row ticketName [] date). split.
  - rewrite (transposed_head _ _ Hfirst), visitRows_app, visitRows_cons.
    unfold visitRow at 2. fold ticketName.
    rewrite Hdates, visitCells_app, visitCells_cons.
    by rewrite <- !app_assoc.
  - subst parsed.
    destruct (visitCell_cases row ticketName [] date)
      as [(Hnan & Hpos & ->) | (Hfail & ->)]; simpl in *.
    + split; [tauto|]. split; [discriminate | tauto].
    + split; [|tauto]. split; [discriminate | tauto].
Qed.

Lemma C1_witness :
  head ([Samples.rowT1] ++ Samples.rowT2 :: []) = Some Samples.rowT1 ∧
  dateHeadersOf Samples.rowT1 = [Samples.day1] ++ Samples.day2 :: [] ∧
  ∃ cell : list OutputRecord,
    transposed Samples.sheet =
      fold_left (visitRow (dateHeadersOf Samples.rowT1)) [Samples.rowT1] []
      ++ fold_left (visitCell Samples.rowT2 (Get Samples.rowT2 ticketHeader))
           [Samples.day1] []
      ++ cell ++ [] ++ []
    ∧ (cell = [{| Date := Samples.day2;
                  Ticket := Get Samples.rowT2 ticketHeader;
                  TimeSpent := parseFloat (Get Samples.rowT2 Samples.day2) |}]
       ↔ isNaN (parseFloat (Get Samples.rowT2 Samples.day2)) = false
         ∧ gt (parseFloat (Get Samples.rowT2 Samples.day2)) zero = true)
    ∧ (cell = []
       ↔ ¬ (isNaN (parseFloat (Get Samples.rowT2 Samples.day2)) = false
            ∧ gt (parseFloat (Get Samples.rowT2 Samples.day2)) zero = true)).
Proof.
  split; [reflexivity|]. split; [reflexivity|].
  exact (C1_cell_emitted_iff_parsed_positive
           [Samples.rowT1] [] Samples.rowT1 Samples.rowT2
           [Samples.day1] [] Samples.day2 eq_refl eq_refl).
Defined.

(** *** The output as the filtered row-major list of cells *)

Lemma visitRow_cells dateHeaders row :
  visitRow dateHeaders [] row =
  recordOf <$> filter accepted (List.map (pair row) dateHeaders).
Proof.
  unfold visitRow.
  induction dateHeaders as [|date dates IH]; [reflexivity|].
  rewrite visitCells_cons, IH. simpl List.map.
  destruct (visitCell_cases row (Get row ticketHeader) [] date)
    as [(Hnan & Hpos & ->) | (Hfail & ->)].
  - rewrite filter_cons_True by (split; assumption). reflexivity.
  - rewrite filter_cons_False by exact Hfail. reflexivity.
Qed.

Lemma visitRows_cells dateHeaders data :
  fold_left (visitRow dateHeaders) data [] =
  recordOf <$> filter accepted (list_prod data dateHeaders).
Proof.
  induction data as [|row rest IH]; [reflexivity|].
  rewrite visitRows_cons, IH, visitRow_cells. simpl list_prod.
  by rewrite filter_app, fmap_app.
Qed.

Lemma transposed_cells data first :
  head data = Some first →
  transposed data =
  recordOf <$> filter accepted (list_prod data (dateHeadersOf first)).
Proof.
  intros Hfirst. rewrite (transposed_head _ _ Hfirst). apply visitRows_cells.
Qed.

(** Every record of the output is the record of an accepted cell of the
    input. *)
Lemma transposed_origin data r :
  r ∈ transposed data →
  ∃ row date, row ∈ data ∧ r = recordOf (row, date) ∧ accepted (row, date).
Proof.
  destruct data as [|first rest]; [by intros ?%elem_of_nil|].
  rewrite (transposed_cells (first :: rest) first eq_refl).
  intros ([row date] & -> & [Hacc Hin]%list_elem_of_filter)%list_elem_of_fmap.
  apply list_elem_of_In, in_prod_iff in Hin as [Hrow _].
  exists row, date. by rewrite list_elem_of_In.
Qed.

(** *** C2: the TimeSpent of a record *)

(** C2, as stated, fails: a cell reading [Infinity] passes the guard of line
    49, so the output holds a record whose TimeSpent is not finite. The same
    happens for a decimal literal too large for a binary64, such as
    [1e999]. *)
Lemma C2_infinite_time_spent :
  transposed [Samples.rowInfinity] =
    [{| Date := Samples.day1; Ticket := Str (str "T5");
        TimeSpent := Infinity |}]
  ∧ isFinite Infinity = false
  ∧ transposed [Samples.rowHuge] =
    [{| Date := Samples.day1; Ticket := Str (str "T6");
        TimeSpent := Infinity |}].
Proof. vm_compute. auto. Qed.

(** C2, amended. The TimeSpent of every record of the output is the result of
    [parseFloat] on a cell of the input, is not NaN and is greater than 0; it
    is a finite Number or [Infinity]. *)
Theorem C2_time_spent_parsed_positive
    (data : list Object) (i : nat) (r : OutputRecord) :
  transposed data !! i = Some r →
  (∃ row date, row ∈ data ∧ TimeSpent r = parseFloat (Get row date))
  ∧ isNaN (TimeSpent r) = false
  ∧ gt (TimeSpent r) zero = true
  ∧ (isFinite (TimeSpent r) = true ∨ TimeSpent r = Infinity).
Proof.
  intros Hr. apply list_elem_of_lookup_2, transposed_origin in Hr
    as (row & date & Hrow & -> & Hnan & Hpos).
  simpl in *. split; [by exists row, date|]. split; [done|]. split; [done|].
  destruct (parseFloat (Get row date)) as [s|[|]| |[|] m e];
    try discriminate; auto.
Qed.

Lemma C2_witness :
  transposed Samples.sheet !! 1 =
    Some {| Date := Samples.day2; Ticket := Str (str "T2");
            TimeSpent := parseFloatString (str "3.5") |}
  ∧ (∃ row date, row ∈ Samples.sheet
       ∧ parseFloatString (str "3.5") = parseFloat (Get row date))
  ∧ isNaN (parseFloatString (str "3.5")) = false
  ∧ gt (parseFloatString (str "3.5")) zero = true
  ∧ (isFinite (parseFloatString (str "3.5")) = true
     ∨ parseFloatString (str "3.5") = Infinity).
Proof.
  split; [reflexivity|].
  exact (C2_time_spent_parsed_positive Samples.sheet 1
           {| Date := Samples.day2; Ticket := Str (str "T2");
              TimeSpent := parseFloatString (str "3.5") |} eq_refl).
Defined.

(** *** C3: how many records *)

(** C3. The output has as many records as there are accepted cells among all
    pairs of a row and a date header, rows counted as often as they occur.
    Rows are never merged: a further row adds exactly the records of its own
    cells, whatever rows precede it. *)
Theorem C3_record_count (data : list Object) (first : Object) :
  head data = Some first →
  length (transposed data) =
    length (filter accepted (list_prod data (dateHeadersOf first)))
  ∧ ∀ row : Object,
      transposed (data ++ [row]) =
        transposed data
        ++ (recordOf <$> filter accepted
                           (List.map (pair row) (dateHeadersOf first))).
Proof.
  intros Hfirst. split.
  - by rewrite (transposed_cells _ _ Hfirst), length_fmap.
  - intros row.
    assert (head (data ++ [row]) = Some first) as Hfirst'
      by (by rewrite head_app, Hfirst).
    rewrite (transposed_head _ _ Hfirst'), (transposed_head _ _ Hfirst).
    rewrite visitRows_app. simpl. by rewrite visitRow_cells.
Qed.

Lemma C3_witness :
  head Samples.sheet = Some Samples.rowT1
  ∧ length (transposed Samples.sheet) =
      length (filter accepted
                (list_prod Samples.sheet (dateHeadersOf Samples.rowT1)))
  ∧ length (transposed (Samples.sheet ++ [Samples.rowT1])) = 3.
Proof.
  split; [reflexivity|].
  pose proof (C3_record_count Samples.sheet Samples.rowT1 eq_refl)
    as [Hcount Hmore].
  split; [exact Hcount|]. rewrite (Hmore Samples.rowT1). reflexivity.
Defined.

(** *** C4: the order of the records *)

(** The records pushed while one row is visited come from date headers at
    strictly increasing indices. *)
Lemma visitCells_positions row ticketName dateHeaders dpost :
  ∀ dpre, dateHeaders = dpre ++ dpost →
  ∃ js : list nat,
    StronglySorted lt js
    ∧ Forall (λ j, length dpre ≤ j) js
    ∧ Forall2 (λ j r, ∃ date, dateHeaders !! j = Some date
                 ∧ r = {| Date := date; Ticket := ticketName;
                          TimeSpent := parseFloat (Get row date) |})
        js (fold_left (visitCell row ticketName) dpost []).
Proof.
  induction dpost as [|date dpost IH]; intros dpre Hsplit.
  - exists []. repeat constructor.
  - destruct (IH (dpre ++ [date])) as (js & Hsorted & Hlow & Hrel).
    { by rewrite <- app_assoc. }
    assert (Forall (λ j, length dpre < j) js) as Hlow'.
    { eapply Forall_impl; [exact Hlow|]. intros j. rewrite length_app. simpl. lia. }
    rewrite visitCells_cons.
    destruct (visitCell_cases row ticketName [] date)
      as [(_ & _ & ->) | (_ & ->)]; simpl.
    + exists (length dpre :: js). split; [by constructor|]. split.
      * constructor; [lia|]. eapply Forall_impl; [exact Hlow'|]. simpl. lia.
      * constructor; [|exact Hrel]. exists date. split; [|reflexivity].
        rewrite Hsplit. apply list_lookup_middle. reflexivity.
    + exists js. split; [exact Hsorted|]. split; [|exact Hrel].
      eapply Forall_impl; [exact Hlow'|]. simpl. lia.
Qed.

Lemma visitRows_positions dateHeaders data post :
  ∀ pre, data = pre ++ post →
  ∃ ps : list (nat * nat),
    StronglySorted visitedBefore ps
    ∧ Forall (λ p, length pre ≤ p.1) ps
    ∧ Forall2 (λ p r, ∃ row date, data !! p.1 = Some row
                 ∧ dateHeaders !! p.2 = Some date
                 ∧ r = recordOf (row, date))
        ps (fold_left (visitRow dateHeaders) post []).
Proof.
  induction post as [|row post IH]; intros pre Hsplit.
  - exists []. repeat constructor.
  - destruct (IH (pre ++ [row])) as (ps & Hsorted & Hlow & Hrel).
    { by rewrite <- app_assoc. }
    assert (Forall (λ p, length pre < p.1) ps) as Hlow'.
    { eapply Forall_impl; [exact Hlow|]. intros p. rewrite length_app. simpl. lia. }
    destruct (visitCells_positions row (Get row ticketHeader)
                dateHeaders dateHeaders [] eq_refl) as (js & Hjs & _ & Hcells).
    rewrite visitRows_cons. unfold visitRow at 1.
    exists ((pair (length pre) <$> js) ++ ps). split; [|split].
    + apply StronglySorted_app. split; [|split].
      * intros p q (j & -> & _)%list_elem_of_fmap Hq.
        left. simpl. by eapply Forall_forall in Hlow'.
      * eapply (StronglySorted_fmap _ lt); [|exact Hjs].
        intros j j' Hlt. right. simpl. by split.
      * exact Hsorted.
    + apply Forall_app. split.
      * apply Forall_fmap, Forall_true. simpl. lia.
      * eapply Forall_impl; [exact Hlow'|]. simpl. lia.
    + apply Forall2_app; [|exact Hrel].
      apply Forall2_fmap_l. eapply Forall2_impl; [exact Hcells|].
      intros j r (date & Hdate & ->). exists row, date. simpl.
      split; [|by split].
      rewrite Hsplit. apply list_lookup_middle. reflexivity.
Qed.

(** C4. The records of the output can be labelled, one by one, with the
    positions (row index, date header index) of the cells they come from, and
    these positions are strictly increasing in the order of the nested loops:
    by row index first, by index in the first row's date headers second. *)
Theorem C4_output_in_visit_order (data : list Object) (first : Object) :
  head data = Some first →
  ∃ ps : list (nat * nat),
    StronglySorted visitedBefore ps
    ∧ Forall2 (λ p r, ∃ row date, data !! p.1 = Some row
                 ∧ dateHeadersOf first !! p.2 = Some date
                 ∧ r = recordOf (row, date))
        ps (transposed data).
Proof.
  intros Hfirst. rewrite (transposed_head _ _ Hfirst).
  destruct (visitRows_positions (dateHeadersOf first) data data [] eq_refl)
    as (ps & Hsorted & _ & Hrel).
  by exists ps.
Qed.

Lemma C4_witness :
  head Samples.sheet = Some Samples.rowT1
  ∧ ∃ ps : list (nat * nat),
      StronglySorted visitedBefore ps
      ∧ Forall2 (λ p r, ∃ row date, Samples.sheet !! p.1 = Some row
                   ∧ dateHeadersOf Samples.rowT1 !! p.2 = Some date
                   ∧ r = recordOf (row, date))
          ps (transposed Samples.sheet).
Proof.
  split; [reflexivity|].
  exact (C4_output_in_visit_order Samples.sheet Samples.rowT1 eq_refl).
Defined.

(** *** C5: the date headers come from the first row *)

Lemma visitCells_ext row row' ticketName dates :
  Forall (λ date, Get row date = Get row' date) dates →
  ∀ acc, fold_left (visitCell row ticketName) dates acc =
         fold_left (visitCell row' ticketName) dates acc.
Proof.
  induction 1 as [|date dates Hdate _ IH]; intros acc; [reflexivity|].
  simpl. rewrite <- IH. unfold visitCell. by rewrite Hdate.
Qed.

Lemma visitRows_bind dateHeaders rows :
  fold_left (visitRow dateHeaders) rows [] = rows ≫= visitRow dateHeaders [].
Proof.
  induction rows as [|row rows IH]; [reflexivity|].
  by rewrite visitRows_cons, IH.
Qed.

(** C5. The date headers are the keys of the first row other than [Ticket],
    in the order of those keys, and every row, the first and the later ones,
    is scanned along exactly these headers. What else a later row holds does
    not matter: replacing the later rows by rows that read the same under
    [Ticket] and under the first row's date headers, whatever their keys and
    key order, leaves the output unchanged. *)
Theorem C5_date_headers_from_first_row
    (first : Object) (rest rest' : list Object) :
  Forall2 (λ row row',
             Forall (λ k, Get row k = Get row' k)
                    (ticketHeader :: dateHeadersOf first)) rest rest' →
  (∀ k, k ∈ dateHeadersOf first ↔ k ∈ keys first ∧ k ≠ str "Ticket")
  ∧ dateHeadersOf first `sublist_of` keys first
  ∧ transposed (first :: rest) =
      (first :: rest) ≫= (λ row,
         fold_left (visitCell row (Get row ticketHeader))
                   (dateHeadersOf first) [])
  ∧ transposed (first :: rest') = transposed (first :: rest).
Proof.
  intros Hagree. split; [|split; [|split]].
  - intros k. unfold dateHeadersOf. rewrite list_elem_of_filter. tauto.
  - apply sublist_filter.
  - rewrite (transposed_head (first :: rest) first eq_refl).
    apply visitRows_bind.
  - rewrite (transposed_head (first :: rest) first eq_refl),
      (transposed_head (first :: rest') first eq_refl).
    rewrite !visitRows_cons. f_equal.
    induction Hagree as [|row row' rows rows' Hrow _ IH]; [reflexivity|].
    rewrite !visitRows_cons, IH. f_equal.
    apply Forall_cons in Hrow as [Hticket Hdates].
    unfold visitRow. rewrite <- Hticket. symmetry.
    by apply visitCells_ext.
Qed.

Lemma C5_witness :
  Forall2 (λ row row',
             Forall (λ k, Get row k = Get row' k)
                    (ticketHeader :: dateHeadersOf Samples.rowT1))
    [Samples.rowT2] [Samples.rowT2wide]
  ∧ dateHeadersOf Samples.rowT1 = [Samples.day1; Samples.day2]
  ∧ transposed [Samples.rowT1; Samples.rowT2wide] = transposed Samples.sheet.
Proof.
  assert (Forall2 (λ row row',
             Forall (λ k, Get row k = Get row' k)
                    (ticketHeader :: dateHeadersOf Samples.rowT1))
            [Samples.rowT2] [Samples.rowT2wide]) as Hagree
    by (repeat constructor).
  split; [exact Hagree|]. split; [reflexivity|].
  exact (proj2 (proj2 (proj2
    (C5_date_headers_from_first_row Samples.rowT1 _ _ Hagree)))).
Defined.

(** *** C6: the empty input *)

(** C6. On the empty array [transposeData] logs one line and returns the
    empty array; [processCsv] on a sheet without rows then hands the writer
    no line. *)
Theorem C6_empty_input :
  transposeData [] = (["No data found in the input CSV."], [])
  ∧ transposed [] = []
  ∧ lines (Console.result (processCsv [])) = [].
Proof. repeat split. Qed.

(** *** C7: the permissive parse *)

Lemma digit_cases (c : N) :
  isDecimalDigit c = true →
  isWhiteSpace c = false
  ∧ (c =? 43)%N = false ∧ (c =? 45)%N = false ∧ (73 =? c)%N = false.
Proof.
  unfold isDecimalDigit. intros [Hlo Hhi]%andb_true_iff.
  apply N.leb_le in Hlo, Hhi.
  assert (c = 48 ∨ c = 49 ∨ c = 50 ∨ c = 51 ∨ c = 52 ∨ c = 53 ∨ c = 54
          ∨ c = 55 ∨ c = 56 ∨ c = 57)%N as Hc by lia.
  repeat destruct Hc as [->|Hc]; try subst c; by vm_compute.
Qed.

(** A run of digits is read whole, up to the first character that is not a
    digit. *)
Lemma DecimalDigits_run (digits tail : jsstring) :
  Forall (λ c, isDecimalDigit c = true) digits →
  (∀ c rest, tail = c :: rest → isDecimalDigit c = false) →
  DecimalDigits (digits ++ tail) = (List.map (λ c, c - 48)%N digits, tail).
Proof.
  intros Hdigits Htail.
  induction Hdigits as [|c digits Hc _ IH]; cbn [app List.map DecimalDigits].
  - destruct tail as [|c rest]; [reflexivity|].
    cbn [DecimalDigits]. by rewrite (Htail c rest eq_refl).
  - by rewrite Hc, IH.
Qed.

(** The permissive parse in general: after a non-empty run of digits, a
    character that is neither a digit nor a point nor an exponent indicator
    ends the literal, and it and everything after it are ignored. *)
Lemma parseFloatString_trailing_ignored
    (d : N) (digits : jsstring) (c : N) (rest : jsstring) :
  Forall (λ c, isDecimalDigit c = true) (d :: digits) →
  isDecimalDigit c = false → c ≠ 46%N → c ≠ 101%N → c ≠ 69%N →
  parseFloatString ((d :: digits) ++ c :: rest) =
  parseFloatString (d :: digits).
Proof.
  intros Hdigits Hc Hpoint He HE.
  pose proof (Forall_inv Hdigits) as Hd. simpl in Hd.
  destruct (digit_cases d Hd) as (Hspace & Hplus & Hminus & HI).
  apply N.eqb_neq in Hpoint, He, HE.
  unfold parseFloatString. simpl TrimStart. rewrite Hspace.
  unfold Sign. simpl app. rewrite Hplus, Hminus.
  unfold StrUnsignedDecimalLiteral.
  change (str "Infinity") with (73%N :: str "nfinity").
  cbn [startsWith]. rewrite HI. cbn [andb].
  change (d :: digits ++ c :: rest) with ((d :: digits) ++ c :: rest).
  rewrite DecimalDigits_run; [|exact Hdigits|by intros ? ? [= <- <-]].
  pose proof (DecimalDigits_run (d :: digits) [] Hdigits) as Hrun.
  rewrite app_nil_r in Hrun. rewrite Hrun by discriminate.
  unfold FractionPart. rewrite Hpoint.
  cbn [List.map app length]. unfold ExponentPart. by rewrite He, HE.
Qed.

(** C7. A cell reading [2h] parses to 2 and its visit pushes a record with
    TimeSpent 2; a cell reading [abc] parses to NaN and its visit pushes
    nothing. *)
Theorem C7_numeric_prefix_parsed
    (row : Object) (date date' : jsstring) (ticketName : value)
    (acc : list OutputRecord) :
  getOwnProperty row date = Some (str "2h") →
  getOwnProperty row date' = Some (str "abc") →
  parseFloat (Get row date) = of_Z 2
  ∧ visitCell row ticketName acc date =
      acc ++ [{| Date := date; Ticket := ticketName; TimeSpent := of_Z 2 |}]
  ∧ parseFloat (Get row date') = NaN
  ∧ visitCell row ticketName acc date' = acc.
Proof.
  intros H2h Habc. unfold visitCell, Get. rewrite H2h, Habc.
  repeat split.
Qed.

Lemma C7_witness :
  getOwnProperty Samples.rowLoose Samples.day1 = Some (str "2h")
  ∧ getOwnProperty Samples.rowLoose Samples.day2 = Some (str "abc")
  ∧ parseFloat (Get Samples.rowLoose Samples.day1) = of_Z 2
  ∧ visitCell Samples.rowLoose (Str (str "T3")) [] Samples.day1 =
      [] ++ [{| Date := Samples.day1; Ticket := Str (str "T3");
                TimeSpent := of_Z 2 |}]
  ∧ parseFloat (Get Samples.rowLoose Samples.day2) = NaN
  ∧ visitCell Samples.rowLoose (Str (str "T3")) [] Samples.day2 = [].
Proof.
  split; [reflexivity|]. split; [reflexivity|].
  exact (C7_numeric_prefix_parsed Samples.rowLoose Samples.day1
           Samples.day2 (Str (str "T3")) [] eq_refl eq_refl).
Defined.

(** *** C8: the ticket name *)

Lemma visitCells_ticket row ticketName dates :
  Forall (λ r, Ticket r = ticketName)
         (fold_left (visitCell row ticketName) dates []).
Proof.
  induction dates as [|date dates IH]; [constructor|].
  rewrite visitCells_cons. apply Forall_app. split; [|exact IH].
  destruct (visitCell_cases row ticketName [] date)
    as [(_ & _ & ->) | (_ & ->)]; repeat constructor.
Qed.

(** C8. When the row has a [Ticket] cell, whatever its text, the visit of the
    row leaves the array as it was and pushes records which all carry that
    text, unchanged, as their Ticket. *)
Theorem C8_ticket_verbatim
    (dateHeaders : list jsstring) (row : Object) (ticket : jsstring)
    (acc : list OutputRecord) :
  getOwnProperty row ticketHeader = Some ticket →
  ∃ emitted : list OutputRecord,
    visitRow dateHeaders acc row = acc ++ emitted
    ∧ Forall (λ r, Ticket r = Str ticket) emitted.
Proof.
  intros Hticket. exists (visitRow dateHeaders [] row).
  split; [apply visitRow_push|].
  unfold visitRow, Get. rewrite Hticket. apply visitCells_ticket.
Qed.

Lemma C8_witness :
  getOwnProperty Samples.rowAnonymous ticketHeader = Some []
  ∧ ∃ emitted : list OutputRecord,
      visitRow [Samples.day1; Samples.day2] [] Samples.rowAnonymous =
        [] ++ emitted
      ∧ Forall (λ r, Ticket r = Str []) emitted.
Proof.
  split; [reflexivity|].
  exact (C8_ticket_verbatim [Samples.day1; Samples.day2]
           Samples.rowAnonymous [] [] eq_refl).
Defined.

(** *** C9: the table given to the writer *)

Lemma onData_all (rows records : list Object) :
  fold_left onData rows records = records ++ rows.
Proof.
  revert records. induction rows as [|row rows IH]; intros records; simpl.
  - by rewrite app_nil_r.
  - rewrite IH. unfold onData, push. by rewrite <- app_assoc.
Qed.

(** C9. The writer is configured with three columns titled [Date], [Ticket]
    and [Time Spent], in this order, and the table it is asked to write has
    one line for each record of the transform of the rows read, in the
    transform's order, with the record's Date, Ticket and TimeSpent under
    these columns. *)
Theorem C9_output_table (rows : list Object) :
  let written := Console.result (processCsv rows) in
  List.map title header = [str "Date"; str "Ticket"; str "Time Spent"]
  ∧ titles written = [str "Date"; str "Ticket"; str "Time Spent"]
  ∧ lines written =
      List.map (λ r, [OfValue (Str (Date r)); OfValue (Ticket r);
                      OfNumber (TimeSpent r)])
               (transposed rows).
Proof.
  unfold processCsv. rewrite onData_all. simpl app.
  unfold onEnd, transposed.
  destruct (transposeData rows) as [out transposedData].
  repeat split.
Qed.

(** *** C10: a row that lacks a date header *)

Lemma parseFloat_prototype (k : jsstring) :
  parseFloat (getPrototypeProperty k) = NaN.
Proof.
  unfold getPrototypeProperty. repeat case_decide; reflexivity.
Qed.

(** C10. When the row has no cell under the date header, reading it yields no
    text, [parseFloat] gives NaN, and the visit of the cell returns the array
    as it was: nothing is pushed and nothing is thrown. *)
Theorem C10_missing_cell_skipped
    (row : Object) (date : jsstring) (ticketName : value)
    (acc : list OutputRecord) :
  getOwnProperty row date = None →
  isNaN (parseFloat (Get row date)) = true
  ∧ visitCell row ticketName acc date = acc.
Proof.
  intros Hmissing. unfold visitCell, Get. rewrite Hmissing.
  by rewrite parseFloat_prototype.
Qed.

Lemma C10_witness :
  getOwnProperty Samples.rowShort Samples.day2 = None
  ∧ isNaN (parseFloat (Get Samples.rowShort Samples.day2)) = true
  ∧ visitCell Samples.rowShort (Str (str "T4")) [] Samples.day2 = [].
Proof.
  split; [reflexivity|].
  exact (C10_missing_cell_skipped Samples.rowShort Samples.day2
           (Str (str "T4")) [] eq_refl).
Defined.

(** ** Further properties of the transform *)

(** *** Dates, bounds and composition *)

(** X1. The Date of an output record is a key of the first row, and never the
    ticket header: a column only later rows have is never reported, and the
    ticket column is never read as a day. *)
Theorem output_dates_from_first_row
    (data : list Object) (first : Object) (i : nat) (r : OutputRecord) :
  head data = Some first →
  transposed data !! i = Some r →
  Date r ∈ keys first ∧ Date r ≠ str "Ticket".
Proof.
  intros Hfirst Hr. apply list_elem_of_lookup_2 in Hr.
  rewrite (transposed_cells _ _ Hfirst) in Hr.
  apply list_elem_of_fmap in Hr as ([row date] & -> & Hcell).
  apply list_elem_of_filter in Hcell as [_ Hcell].
  apply list_elem_of_In, in_prod_iff in Hcell as [_ Hdate].
  apply list_elem_of_In in Hdate. unfold dateHeadersOf in Hdate.
  apply list_elem_of_filter in Hdate as [Hne Hkey]. by split.
Qed.

Lemma output_dates_from_first_row_witness :
  head Samples.sheet = Some Samples.rowT1
  ∧ transposed Samples.sheet !! 1 =
      Some {| Date := Samples.day2; Ticket := Str (str "T2");
              TimeSpent := parseFloatString (str "3.5") |}
  ∧ Samples.day2 ∈ keys Samples.rowT1 ∧ Samples.day2 ≠ str "Ticket".
Proof.
  split; [reflexivity|]. split; [reflexivity|].
  exact (output_dates_from_first_row Samples.sheet Samples.rowT1 1
           {| Date := Samples.day2; Ticket := Str (str "T2");
              TimeSpent := parseFloatString (str "3.5") |}
           eq_refl eq_refl).
Defined.

(** X2. The output has at most one record per row and date header, and there are
    no more date headers than keys in the first row. *)
Theorem output_length_bound (data : list Object) (first : Object) :
  head data = Some first →
  length (transposed data) ≤ length data * length (dateHeadersOf first)
  ∧ length (dateHeadersOf first) ≤ length (keys first).
Proof.
  intros Hfirst. split.
  - rewrite (transposed_cells _ _ Hfirst), length_fmap, <- length_prod.
    apply length_filter.
  - apply length_filter.
Qed.

Lemma output_length_bound_witness :
  head Samples.sheet = Some Samples.rowT1
  ∧ length (transposed Samples.sheet)
      ≤ length Samples.sheet * length (dateHeadersOf Samples.rowT1)
  ∧ length (dateHeadersOf Samples.rowT1) ≤ length (keys Samples.rowT1).
Proof.
  split; [reflexivity|].
  exact (output_length_bound Samples.sheet Samples.rowT1 eq_refl).
Defined.

(** X3. Two sheets whose first rows give the same date headers can be transposed
    apart: the transform of the rows of the one followed by the rows of the
    other is the output for the one followed by the output for the other. *)
Theorem transposed_app
    (data1 data2 : list Object) (first1 first2 : Object) :
  head data1 = Some first1 →
  head data2 = Some first2 →
  dateHeadersOf first2 = dateHeadersOf first1 →
  transposed (data1 ++ data2) = transposed data1 ++ transposed data2.
Proof.
  intros Hfirst1 Hfirst2 Hsame.
  assert (head (data1 ++ data2) = Some first1) as Hfirst
    by (by rewrite head_app, Hfirst1).
  rewrite (transposed_head _ _ Hfirst), (transposed_head _ _ Hfirst1),
    (transposed_head _ _ Hfirst2), Hsame.
  apply visitRows_app.
Qed.

Lemma transposed_app_witness :
  head [Samples.rowShort] = Some Samples.rowShort
  ∧ head [Samples.rowInfinity] = Some Samples.rowInfinity
  ∧ dateHeadersOf Samples.rowInfinity = dateHeadersOf Samples.rowShort
  ∧ transposed ([Samples.rowShort] ++ [Samples.rowInfinity]) =
      transposed [Samples.rowShort] ++ transposed [Samples.rowInfinity].
Proof.
  split; [reflexivity|]. split; [reflexivity|]. split; [reflexivity|].
  exact (transposed_app [Samples.rowShort] [Samples.rowInfinity]
           Samples.rowShort Samples.rowInfinity eq_refl eq_refl eq_refl).
Defined.

(** X4. The records pushed for one row have their Dates among the date headers,
    in the order of the headers, each header at most once: with distinct
    headers no day is reported twice for a row. *)
Theorem row_dates_distinct
    (dateHeaders : list jsstring) (row : Object) (acc : list OutputRecord) :
  NoDup dateHeaders →
  ∃ emitted : list OutputRecord,
    visitRow dateHeaders acc row = acc ++ emitted
    ∧ Date <$> emitted `sublist_of` dateHeaders
    ∧ NoDup (Date <$> emitted).
Proof.
  intros Hdistinct. exists (visitRow dateHeaders [] row).
  split; [apply visitRow_push|].
  assert (Date <$> visitRow dateHeaders [] row `sublist_of` dateHeaders)
    as Hsub.
  { unfold visitRow. generalize (Get row ticketHeader) as ticketName.
    intros ticketName. clear Hdistinct.
    induction dateHeaders as [|date dates IH]; [reflexivity|].
    rewrite visitCells_cons, fmap_app.
    destruct (visitCell_cases row ticketName [] date)
      as [(_ & _ & ->) | (_ & ->)]; simpl.
    - by apply sublist_skip.
    - by apply sublist_cons. }
  split; [exact Hsub|]. by eapply sublist_NoDup.
Qed.

Lemma row_dates_distinct_witness :
  NoDup [Samples.day1; Samples.day2]
  ∧ ∃ emitted : list OutputRecord,
      visitRow [Samples.day1; Samples.day2] [] Samples.rowAnonymous =
        [] ++ emitted
      ∧ Date <$> emitted `sublist_of` [Samples.day1; Samples.day2]
      ∧ NoDup (Date <$> emitted).
Proof.
  assert (NoDup [Samples.day1; Samples.day2]) as Hdistinct
    by (apply (bool_decide_unpack _); reflexivity).
  split; [exact Hdistinct|].
  exact (row_dates_distinct [Samples.day1; Samples.day2]
           Samples.rowAnonymous [] Hdistinct).
Defined.

(** *** The ticket column *)



Lemma filter_all {A} (P : A → Prop) `{!∀ x, Decision (P x)} (l : list A) :
  Forall P l → filter P l = l.
Proof.
  induction 1 as [|x l Hx _ IH]; [reflexivity|].
  by rewrite filter_cons_True, IH.
Qed.

(** X6. The ticket column may stand anywhere in the header: the date headers are
    the keys before it followed by the keys after it. *)
Theorem date_headers_around_ticket
    (first : Object) (before after : list jsstring) :
  keys first = before ++ ticketHeader :: after →
  Forall (λ k, k ≠ ticketHeader) before →
  Forall (λ k, k ≠ ticketHeader) after →
  dateHeadersOf first = before ++ after.
Proof.
  intros Hkeys Hbefore Hafter. unfold dateHeadersOf. rewrite Hkeys.
  rewrite filter_app, filter_cons_False by (intros Hne; by apply Hne).
  by rewrite !filter_all.
Qed.

Lemma date_headers_around_ticket_witness :
  keys Samples.rowTicketInside =
    [Samples.day1] ++ ticketHeader :: [Samples.day2]
  ∧ Forall (λ k, k ≠ ticketHeader) [Samples.day1]
  ∧ Forall (λ k, k ≠ ticketHeader) [Samples.day2]
  ∧ dateHeadersOf Samples.rowTicketInside = [Samples.day1] ++ [Samples.day2].
Proof.
  assert (Forall (λ k, k ≠ ticketHeader) [Samples.day1]) as Hbefore
    by (apply (bool_decide_unpack _); reflexivity).
  assert (Forall (λ k, k ≠ ticketHeader) [Samples.day2]) as Hafter
    by (apply (bool_decide_unpack _); reflexivity).
  split; [reflexivity|]. split; [exact Hbefore|]. split; [exact Hafter|].
  exact (date_headers_around_ticket Samples.rowTicketInside
           [Samples.day1] [Samples.day2] eq_refl Hbefore Hafter).
Defined.




(** *** Which cell texts pass the guard *)

Lemma visitCell_rejected row ticketName acc date :
  isNaN (parseFloat (Get row date)) = true
  ∨ gt (parseFloat (Get row date)) zero = false →
  visitCell row ticketName acc date = acc.
Proof.
  intros Hfail.
  destruct (visitCell_cases row ticketName acc date)
    as [(Hnan & Hpos & _) | (_ & ->)]; [|reflexivity].
  destruct Hfail; congruence.
Qed.

Lemma parseFloat_own row date s :
  getOwnProperty row date = Some s →
  parseFloat (Get row date) = parseFloatString s.
Proof. intros Hown. unfold Get. by rewrite Hown. Qed.

Lemma TrimStart_app (blank s : jsstring) :
  Forall (λ c, isWhiteSpace c = true) blank →
  TrimStart (blank ++ s) = TrimStart s.
Proof.
  induction 1 as [|c blank Hc _ IH]; [reflexivity|].
  cbn [app TrimStart]. by rewrite Hc.
Qed.

(** X8. A cell that is empty or holds only white space is skipped. *)
Theorem blank_cell_skipped
    (row : Object) (date : jsstring) (ticketName : value)
    (acc : list OutputRecord) (blank : jsstring) :
  getOwnProperty row date = Some blank →
  Forall (λ c, isWhiteSpace c = true) blank →
  isNaN (parseFloat (Get row date)) = true
  ∧ visitCell row ticketName acc date = acc.
Proof.
  intros Hown Hblank.
  assert (isNaN (parseFloat (Get row date)) = true) as Hnan.
  { rewrite (parseFloat_own _ _ _ Hown). unfold parseFloatString.
    rewrite <- (app_nil_r blank), (TrimStart_app _ _ Hblank). reflexivity. }
  split; [exact Hnan|]. apply visitCell_rejected. by left.
Qed.

Lemma blank_cell_skipped_witness :
  getOwnProperty Samples.rowOdd (str "a") = Some (str "   ")
  ∧ Forall (λ c, isWhiteSpace c = true) (str "   ")
  ∧ isNaN (parseFloat (Get Samples.rowOdd (str "a"))) = true
  ∧ visitCell Samples.rowOdd (Str (str "T9")) [] (str "a") = [].
Proof.
  assert (Forall (λ c, isWhiteSpace c = true) (str "   ")) as Hblank
    by (repeat constructor).
  split; [reflexivity|]. split; [exact Hblank|].
  exact (blank_cell_skipped Samples.rowOdd (str "a") (Str (str "T9")) []
           (str "   ") eq_refl Hblank).
Defined.

(** X9. White space before the number does not matter: two rows whose cells
    differ by leading white space only are treated alike. *)
Theorem leading_blank_ignored
    (row row' : Object) (date : jsstring) (ticketName : value)
    (acc : list OutputRecord) (blank s : jsstring) :
  getOwnProperty row date = Some (blank ++ s) →
  getOwnProperty row' date = Some s →
  Forall (λ c, isWhiteSpace c = true) blank →
  visitCell row ticketName acc date = visitCell row' ticketName acc date.
Proof.
  intros Hown Hown' Hblank. unfold visitCell.
  rewrite (parseFloat_own _ _ _ Hown), (parseFloat_own _ _ _ Hown').
  unfold parseFloatString. by rewrite (TrimStart_app _ _ Hblank).
Qed.

Lemma leading_blank_ignored_witness :
  getOwnProperty Samples.rowOdd (str "d") = Some (str "  " ++ str "12")
  ∧ getOwnProperty [(str "d", str "12")] (str "d") = Some (str "12")
  ∧ Forall (λ c, isWhiteSpace c = true) (str "  ")
  ∧ visitCell Samples.rowOdd Undefined [] (str "d") =
      visitCell [(str "d", str "12")] Undefined [] (str "d").
Proof.
  assert (Forall (λ c, isWhiteSpace c = true) (str "  ")) as Hblank
    by (repeat constructor).
  split; [reflexivity|]. split; [reflexivity|]. split; [exact Hblank|].
  exact (leading_blank_ignored Samples.rowOdd [(str "d", str "12")] (str "d")
           Undefined [] (str "  ") (str "12") eq_refl eq_refl Hblank).
Defined.

Lemma negative_round_not_positive mx ex lx :
  gt (binary_round_aux prec emax true mx ex lx) zero = false.
Proof.
  unfold binary_round_aux.
  destruct (shr_fexp _ _ mx ex lx) as [mrs e'].
  destruct (shr_fexp _ _ _ e' loc_Exact) as [mrs' e''].
  destruct (shr_m mrs'); [reflexivity| |reflexivity].
  by destruct (Z.leb _ _).
Qed.

Lemma negative_literal_not_positive (l : literal) :
  gt (StringNumericValue true l) zero = false.
Proof.
  destruct l as [|[|p] e]; [reflexivity..|].
  unfold StringNumericValue, Number_of_decimal.
  destruct e as [|k|k].
  - unfold binary_round. destruct (shl_align _ _ _).
    apply negative_round_not_positive.
  - unfold binary_round. destruct (shl_align _ _ _).
    apply negative_round_not_positive.
  - destruct (SFdiv_core_binary _ _ _ _ _ _) as [[q e'] lo].
    apply negative_round_not_positive.
Qed.

(** X10. A cell whose text starts, after white space, with a minus sign is
    skipped, whatever follows the sign. *)
Theorem minus_cell_skipped
    (row : Object) (date : jsstring) (ticketName : value)
    (acc : list OutputRecord) (blank rest : jsstring) :
  getOwnProperty row date = Some (blank ++ 45%N :: rest) →
  Forall (λ c, isWhiteSpace c = true) blank →
  visitCell row ticketName acc date = acc.
Proof.
  intros Hown Hblank. apply visitCell_rejected.
  rewrite (parseFloat_own _ _ _ Hown). unfold parseFloatString.
  rewrite (TrimStart_app _ _ Hblank).
  change (TrimStart (45%N :: rest)) with (45%N :: rest).
  change (Sign (45%N :: rest)) with (true, rest). cbv beta iota.
  destruct (StrUnsignedDecimalLiteral rest) as [l|].
  - right. apply negative_literal_not_positive.
  - left. reflexivity.
Qed.

Lemma minus_cell_skipped_witness :
  getOwnProperty Samples.rowOdd (str "b") = Some (str " " ++ 45%N :: str "2.5")
  ∧ Forall (λ c, isWhiteSpace c = true) (str " ")
  ∧ visitCell Samples.rowOdd (Str (str "T9")) [] (str "b") = [].
Proof.
  assert (Forall (λ c, isWhiteSpace c = true) (str " ")) as Hblank
    by (repeat constructor).
  split; [reflexivity|]. split; [exact Hblank|].
  exact (minus_cell_skipped Samples.rowOdd (str "b") (Str (str "T9")) []
           (str " ") (str "2.5") eq_refl Hblank).
Defined.

(** What a run of digits, and a run of digits with a fraction, denote. *)
Lemma parseFloatString_integer (d : N) (digits tail : jsstring) :
  Forall (λ c, isDecimalDigit c = true) (d :: digits) →
  (∀ c rest, tail = c :: rest → isDecimalDigit c = false ∧ c ≠ 46%N) →
  parseFloatString ((d :: digits) ++ tail) =
  Number_of_decimal false (MV (List.map (λ c, c - 48)%N (d :: digits)))
    (ExponentPart tail).
Proof.
  intros Hdigits Htail.
  pose proof (Forall_inv Hdigits) as Hd. simpl in Hd.
  destruct (digit_cases d Hd) as (Hspace & Hplus & Hminus & HI).
  unfold parseFloatString. cbn [app TrimStart]. rewrite Hspace.
  unfold Sign. rewrite Hplus, Hminus.
  unfold StrUnsignedDecimalLiteral.
  change (str "Infinity") with (73%N :: str "nfinity").
  cbn [startsWith]. rewrite HI. cbn [andb].
  change (d :: digits ++ tail) with ((d :: digits) ++ tail).
  rewrite DecimalDigits_run;
    [|exact Hdigits|intros c rest Hc; by destruct (Htail c rest Hc)].
  assert (FractionPart tail = ([], tail)) as ->.
  { destruct tail as [|c rest]; [reflexivity|].
    destruct (Htail c rest eq_refl) as [_ Hpoint%N.eqb_neq].
    unfold FractionPart. by rewrite Hpoint. }
  rewrite app_nil_r. cbn [List.map length]. by rewrite Z.sub_0_r.
Qed.

Lemma parseFloatString_fraction (d : N) (digits fdigits tail : jsstring) :
  Forall (λ c, isDecimalDigit c = true) (d :: digits) →
  Forall (λ c, isDecimalDigit c = true) fdigits →
  (∀ c rest, tail = c :: rest → isDecimalDigit c = false) →
  parseFloatString ((d :: digits) ++ 46%N :: fdigits ++ tail) =
  Number_of_decimal false
    (MV (List.map (λ c, c - 48)%N ((d :: digits) ++ fdigits)))
    (ExponentPart tail - Z.of_nat (length fdigits)).
Proof.
  intros Hdigits Hfdigits Htail.
  pose proof (Forall_inv Hdigits) as Hd. simpl in Hd.
  destruct (digit_cases d Hd) as (Hspace & Hplus & Hminus & HI).
  unfold parseFloatString. cbn [app TrimStart]. rewrite Hspace.
  unfold Sign. rewrite Hplus, Hminus.
  unfold StrUnsignedDecimalLiteral.
  change (str "Infinity") with (73%N :: str "nfinity").
  cbn [startsWith]. rewrite HI. cbn [andb].
  change (d :: digits ++ 46%N :: fdigits ++ tail)
    with ((d :: digits) ++ 46%N :: fdigits ++ tail).
  rewrite DecimalDigits_run; [|exact Hdigits|by intros ? ? [= <- _]].
  change (FractionPart (46%N :: fdigits ++ tail))
    with (DecimalDigits (fdigits ++ tail)).
  rewrite DecimalDigits_run; [|exact Hfdigits|exact Htail].
  rewrite <- map_app, length_map. reflexivity.
Qed.

Lemma MV_zeros (zeros : jsstring) :
  Forall (λ c, c = 48%N) zeros → MV (List.map (λ c, c - 48)%N zeros) = 0%N.
Proof.
  unfold MV. induction 1 as [|c zeros -> _ IH]; [reflexivity|exact IH].
Qed.

Lemma zeros_digits (zeros : jsstring) :
  Forall (λ c, c = 48%N) zeros →
  Forall (λ c, isDecimalDigit c = true) zeros.
Proof. intros Hz. eapply Forall_impl; [exact Hz|]. by intros c ->. Qed.

(** X11. A cell of zeros, as [0] or [000], is skipped, also when something that
    is neither a digit nor a point follows the zeros. *)
Theorem zero_cell_skipped
    (row : Object) (date : jsstring) (ticketName : value)
    (acc : list OutputRecord) (zeros tail : jsstring) :
  getOwnProperty row date = Some ((48%N :: zeros) ++ tail) →
  Forall (λ c, c = 48%N) zeros →
  (∀ c rest, tail = c :: rest → isDecimalDigit c = false ∧ c ≠ 46%N) →
  parseFloat (Get row date) = zero
  ∧ visitCell row ticketName acc date = acc.
Proof.
  intros Hown Hzeros Htail.
  assert (parseFloat (Get row date) = zero) as Hparse.
  { rewrite (parseFloat_own _ _ _ Hown), parseFloatString_integer;
      [|apply zeros_digits; by constructor|exact Htail].
    rewrite MV_zeros by (by constructor). reflexivity. }
  split; [exact Hparse|]. apply visitCell_rejected. right. by rewrite Hparse.
Qed.

Lemma zero_cell_skipped_witness :
  getOwnProperty Samples.rowOdd (str "c") = Some ((48%N :: str "00") ++ [])
  ∧ Forall (λ c, c = 48%N) (str "00")
  ∧ parseFloat (Get Samples.rowOdd (str "c")) = zero
  ∧ visitCell Samples.rowOdd (Str (str "T9")) [] (str "c") = [].
Proof.
  assert (Forall (λ c, c = 48%N) (str "00")) as Hzeros
    by (repeat constructor).
  split; [reflexivity|]. split; [exact Hzeros|].
  refine (zero_cell_skipped Samples.rowOdd (str "c") (Str (str "T9")) []
            (str "00") [] eq_refl Hzeros _).
  intros c rest Hnil. discriminate Hnil.
Defined.

(** X12. A cell of zeros with a point, as [0.00] or [0.], is skipped as well. *)
Theorem zero_decimal_cell_skipped
    (row : Object) (date : jsstring) (ticketName : value)
    (acc : list OutputRecord) (zeros fzeros tail : jsstring) :
  getOwnProperty row date = Some ((48%N :: zeros) ++ 46%N :: fzeros ++ tail) →
  Forall (λ c, c = 48%N) zeros →
  Forall (λ c, c = 48%N) fzeros →
  (∀ c rest, tail = c :: rest → isDecimalDigit c = false) →
  parseFloat (Get row date) = zero
  ∧ visitCell row ticketName acc date = acc.
Proof.
  intros Hown Hzeros Hfzeros Htail.
  assert (parseFloat (Get row date) = zero) as Hparse.
  { rewrite (parseFloat_own _ _ _ Hown), parseFloatString_fraction;
      [|apply zeros_digits; by constructor|by apply zeros_digits|exact Htail].
    rewrite MV_zeros; [reflexivity|].
    apply Forall_app. split; [by constructor|exact Hfzeros]. }
  split; [exact Hparse|]. apply visitCell_rejected. right. by rewrite Hparse.
Qed.

Lemma zero_decimal_cell_skipped_witness :
  getOwnProperty Samples.rowOdd (str "g") =
    Some ((48%N :: []) ++ 46%N :: str "00" ++ [])
  ∧ Forall (λ c, c = 48%N) (str "00")
  ∧ parseFloat (Get Samples.rowOdd (str "g")) = zero
  ∧ visitCell Samples.rowOdd (Str (str "T9")) [] (str "g") = [].
Proof.
  assert (Forall (λ c, c = 48%N) (str "00")) as Hfzeros
    by (repeat constructor).
  split; [reflexivity|]. split; [exact Hfzeros|].
  refine (zero_decimal_cell_skipped Samples.rowOdd (str "g") (Str (str "T9"))
            [] [] (str "00") [] eq_refl (List.Forall_nil _) Hfzeros _).
  intros c rest Hnil. discriminate Hnil.
Defined.

(** *** Numbers that are billed *)

Section Rounding.
Local Open Scope Z_scope.

Lemma Zdigits2_log2 (p : positive) :
  Zdigits2 (Zpos p) = Z.log2 (Zpos p) + 1.
Proof.
  assert (∀ q, digits2_pos q = Pos.size q) as Hsize.
  { induction q as [q IH|q IH|]; simpl; by rewrite ?IH. }
  unfold Zdigits2. rewrite Hsize.
  destruct p as [p|p|]; simpl; lia.
Qed.

Lemma shr_1_m (mrs : shr_record) :
  0 <= shr_m mrs → shr_m (shr_1 mrs) = Z.div2 (shr_m mrs).
Proof.
  destruct mrs as [m r s]. simpl. intros Hm.
  destruct m as [|[p|p|]|p]; try reflexivity; lia.
Qed.

Lemma shr_iter_m (n : positive) :
  ∀ mrs, 0 <= shr_m mrs →
  shr_m (SpecFloat.iter_pos shr_1 n mrs) = Z.shiftr (shr_m mrs) (Zpos n).
Proof.
  assert (∀ mrs, 0 <= shr_m mrs → 0 <= shr_m (shr_1 mrs)) as Hnonneg.
  { intros mrs Hm. rewrite shr_1_m by done. rewrite Z.div2_div.
    by apply Z.div_pos. }
  induction n as [n IH|n IH|]; intros mrs Hm; simpl.
  - rewrite IH, IH, shr_1_m by (rewrite ?IH by auto; rewrite ?Z.shiftr_nonneg; auto).
    rewrite Z.div2_spec, !Z.shiftr_shiftr by lia. f_equal. lia.
  - rewrite IH, IH by (rewrite ?IH by auto; rewrite ?Z.shiftr_nonneg; auto).
    rewrite !Z.shiftr_shiftr by lia. f_equal. lia.
  - rewrite shr_1_m by done. by rewrite Z.div2_spec.
Qed.

Lemma Zdigits2_pos_log2 (z : Z) : 0 < z → Zdigits2 z = Z.log2 z + 1.
Proof. destruct z as [|p|p]; [lia| |lia]. intros _. apply Zdigits2_log2. Qed.

Lemma shr_record_of_loc_m (m : Z) (l : location) :
  shr_m (shr_record_of_loc m l) = m.
Proof. by destruct l as [|[]]. Qed.

(** Rounding a positive mantissa keeps it positive as long as its magnitude
    is above the smallest exponent. *)
Lemma shr_fexp_positive (m e : Z) (l : location) :
  0 < m → -1074 < Zdigits2 m + e →
  0 < shr_m (shr_fexp prec emax m e l).1
  ∧ Zdigits2 (shr_m (shr_fexp prec emax m e l).1) + (shr_fexp prec emax m e l).2
    = Zdigits2 m + e.
Proof.
  intros Hm Hmag. unfold shr_fexp, shr.
  rewrite (Zdigits2_pos_log2 m Hm) in *.
  pose proof (Z.log2_nonneg m) as Hlog.
  destruct (fexp prec emax (Z.log2 m + 1 + e) - e) as [|n|n] eqn:Hn; simpl;
    rewrite ?shr_record_of_loc_m, ?Zdigits2_pos_log2 by done; try (split; lia).
  assert (Zpos n <= Z.log2 m) as Hshift.
  { unfold fexp, emin, prec, emax in Hn. lia. }
  rewrite shr_iter_m by (rewrite shr_record_of_loc_m; lia).
  rewrite shr_record_of_loc_m.
  assert (0 < Z.shiftr m (Zpos n)) as Hpos.
  { rewrite Z.shiftr_div_pow2 by lia.
    apply Z.lt_le_trans with 1; [lia|].
    apply Z.div_le_lower_bound; [lia|]. rewrite Z.mul_1_r.
    apply Z.le_trans with (2 ^ Z.log2 m).
    - apply Z.pow_le_mono_r; lia.
    - by apply Z.log2_spec. }
  split; [exact Hpos|].
  rewrite (Zdigits2_pos_log2 _ Hpos), Z.log2_shiftr by done.
  unfold fexp, emin, prec, emax in Hn. lia.
Qed.

Lemma round_nearest_even_ge (m : Z) (l : location) :
  m <= round_nearest_even m l.
Proof. destruct l as [|[]]; simpl; try destruct (Z.even m); lia. Qed.

Lemma binary_round_aux_positive (m e : Z) (l : location) :
  0 < m → -1074 < Zdigits2 m + e →
  gt (binary_round_aux prec emax false m e l) zero = true.
Proof.
  intros Hm Hmag. unfold binary_round_aux.
  destruct (shr_fexp_positive m e l Hm Hmag) as [Hpos Hdigits].
  destruct (shr_fexp prec emax m e l) as [mrs e']. simpl in Hpos, Hdigits.
  set (m1 := round_nearest_even (shr_m mrs) (loc_of_shr_record mrs)).
  pose proof (round_nearest_even_ge (shr_m mrs) (loc_of_shr_record mrs)) as Hge.
  fold m1 in Hge.
  assert (0 < m1) as Hm1 by lia.
  assert (-1074 < Zdigits2 m1 + e') as Hmag1.
  { rewrite (Zdigits2_pos_log2 _ Hm1).
    rewrite (Zdigits2_pos_log2 _ Hpos) in Hdigits.
    pose proof (Z.log2_le_mono _ _ Hge). lia. }
  destruct (shr_fexp_positive m1 e' loc_Exact Hm1 Hmag1) as [Hpos' _].
  destruct (shr_fexp prec emax m1 e' loc_Exact) as [mrs' e'']. simpl in Hpos'.
  destruct (shr_m mrs') as [|p|p]; [lia| |lia].
  by destruct (e'' <=? emax - prec).
Qed.

Lemma digits2_pos_iter_xO (m d : positive) :
  Zpos (digits2_pos (Pos.iter xO m d)) = Zpos (digits2_pos m) + Zpos d.
Proof.
  induction d as [|d IH] using Pos.peano_ind.
  - simpl. lia.
  - rewrite Pos.iter_succ. simpl digits2_pos. lia.
Qed.

Lemma binary_round_positive (m : positive) :
  gt (binary_round prec emax false m 0) zero = true.
Proof.
  unfold binary_round.
  assert (Zdigits2 (Zpos (shl_align m 0 (fexp prec emax (Zpos (digits2_pos m) + 0))).1)
          + (shl_align m 0 (fexp prec emax (Zpos (digits2_pos m) + 0))).2
          = Zpos (digits2_pos m)) as Hdigits.
  { unfold shl_align.
    destruct (fexp prec emax (Zpos (digits2_pos m) + 0) - 0) as [|d|d] eqn:Hd;
      simpl; [lia..|].
    rewrite digits2_pos_iter_xO. lia. }
  destruct (shl_align _ _ _) as [mz ez]. cbn [fst snd] in Hdigits.
  apply binary_round_aux_positive; lia.
Qed.

Lemma div_round_positive (p k : positive) :
  10 ^ Zpos k <= Zpos p * 2 ^ 1074 →
  gt (let '(q, e', l) :=
        SFdiv_core_binary prec emax (Zpos p) 0 (Z.pow_pos 10 k) 0 in
      binary_round_aux prec emax false q e' l) zero = true.
Proof.
  intros Hsize. change (Z.pow_pos 10 k) with (10 ^ Zpos k).
  assert (0 < 10 ^ Zpos k) as HM by (apply Z.pow_pos_nonneg; lia).
  unfold SFdiv_core_binary.
  rewrite (Zdigits2_pos_log2 (Zpos p)), (Zdigits2_pos_log2 _ HM) by lia.
  set (d1 := Z.log2 (Zpos p) + 1). set (d2 := Z.log2 (10 ^ Zpos k) + 1).
  set (e' := Z.min (fexp prec emax (d1 + 0 - (d2 + 0))) (0 - 0)).
  assert (-1074 <= e' <= 0) as He'
    by (unfold e', fexp, emin, prec, emax; lia).
  set (m' := match 0 - 0 - e' with
             | Z.pos _ => Z.shiftl (Zpos p) (0 - 0 - e')
             | 0 => Zpos p
             | Z.neg _ => 0
             end).
  assert (m' = Zpos p * 2 ^ (- e')) as Hm'.
  { unfold m'. replace (0 - 0 - e') with (- e') by lia.
    destruct (- e') as [|s|s] eqn:Hs; [lia| |lia].
    by rewrite Z.shiftl_mul_pow2. }
  assert (10 ^ Zpos k <= m') as Hle.
  { rewrite Hm'.
    destruct (Z.le_gt_cases (-1074) (d1 - d2 - 53)) as [Hnormal|Hsmall].
    - assert (d2 - d1 + 53 <= - e') as Hs
        by (unfold e', fexp, emin, prec, emax; lia).
      pose proof (Z.log2_spec _ HM) as [_ Hhi].
      pose proof (Z.log2_spec (Zpos p) ltac:(lia)) as [Hlo _].
      pose proof (Z.log2_nonneg (Zpos p)) as Hn1.
      pose proof (Z.log2_nonneg (10 ^ Zpos k)) as Hn2.
      apply Z.le_trans with (2 ^ Z.log2 (Zpos p) * 2 ^ (- e'));
        [|apply Z.mul_le_mono_nonneg_r; [apply Z.pow_nonneg; lia|exact Hlo]].
      rewrite <- Z.pow_add_r by lia.
      apply Z.le_trans with (2 ^ Z.succ (Z.log2 (10 ^ Zpos k))); [lia|].
      apply Z.pow_le_mono_r; [lia|]. unfold d1, d2 in Hs. lia.
    - assert (- e' = 1074) as ->
        by (unfold e', fexp, emin, prec, emax; lia).
      exact Hsize. }
  destruct (Z.div_eucl m' (10 ^ Zpos k)) as [q r] eqn:Hdiv.
  assert (q = m' / 10 ^ Zpos k) as Hq by (unfold Z.div; by rewrite Hdiv).
  assert (0 < q) as Hqpos.
  { rewrite Hq. apply Z.div_str_pos. lia. }
  apply binary_round_aux_positive; [exact Hqpos|].
  rewrite (Zdigits2_pos_log2 _ Hqpos). pose proof (Z.log2_nonneg q). lia.
Qed.

(** A decimal with a non-zero mantissa is a positive Number unless it lies
    below the smallest positive binary64. *)
Lemma Number_of_decimal_positive (p : positive) (e : Z) :
  0 <= e ∨ 10 ^ (- e) <= Zpos p * 2 ^ 1074 →
  gt (Number_of_decimal false (Npos p) e) zero = true.
Proof.
  intros Hsize. unfold Number_of_decimal.
  destruct e as [|k|k]; [apply binary_round_positive..|].
  apply div_round_positive. destruct Hsize as [Hneg|Hsize]; [lia|exact Hsize].
Qed.

Lemma MV_positive (cs : jsstring) :
  Forall (λ c, isDecimalDigit c = true) cs →
  Exists (λ c, c ≠ 48%N) cs →
  ∃ p, MV (List.map (λ c, c - 48)%N cs) = Npos p.
Proof.
  intros Hdigits Hnonzero.
  assert (∀ ds acc, (acc <= fold_left (λ a d, 10 * a + d) ds acc)%N) as Hge.
  { induction ds as [|d' ds IH]; intros a; simpl; [lia|].
    etrans; [|apply IH]. lia. }
  assert (∀ acc, (0 < fold_left (λ a d, 10 * a + d)
                         (List.map (λ c, c - 48) cs) acc)%N) as Hpos.
  { induction Hnonzero as [c cs Hc|c cs _ IH]; intros a; simpl.
    - apply Forall_inv in Hdigits. unfold isDecimalDigit in Hdigits.
      apply andb_true_iff in Hdigits as [Hlo%N.leb_le _].
      eapply N.lt_le_trans; [|apply Hge]. lia.
    - apply IH. by apply Forall_inv_tail in Hdigits. }
  specialize (Hpos 0%N). unfold MV.
  destruct (fold_left _ _ _) as [|p]; [lia|by exists p].
Qed.

Lemma ExponentPart_none (tail : jsstring) :
  (∀ c rest, tail = c :: rest → c ≠ 101%N ∧ c ≠ 69%N) →
  ExponentPart tail = 0.
Proof.
  destruct tail as [|c rest]; [reflexivity|]. intros Htail.
  destruct (Htail c rest eq_refl) as [He%N.eqb_neq HE%N.eqb_neq].
  unfold ExponentPart. by rewrite He, HE.
Qed.

Lemma visitCell_accepted row ticketName acc date :
  gt (parseFloat (Get row date)) zero = true →
  visitCell row ticketName acc date =
    acc ++ [{| Date := date; Ticket := ticketName;
               TimeSpent := parseFloat (Get row date) |}].
Proof.
  intros Hpos.
  destruct (visitCell_cases row ticketName acc date)
    as [(_ & _ & ->) | (Hfail & _)]; [reflexivity|].
  exfalso. apply Hfail. split; [|exact Hpos].
  by destruct (parseFloat (Get row date)).
Qed.

(** X13. A cell that holds a whole number other than zero, written in digits, is
    always billed, with that number as TimeSpent; text after the digits that
    starts with neither a digit, a point nor an exponent letter does not
    matter. *)
Theorem positive_integer_cell_emitted
    (row : Object) (date : jsstring) (ticketName : value)
    (acc : list OutputRecord) (d : N) (digits tail : jsstring) :
  getOwnProperty row date = Some ((d :: digits) ++ tail) →
  Forall (λ c, isDecimalDigit c = true) (d :: digits) →
  Exists (λ c, c ≠ 48%N) (d :: digits) →
  (∀ c rest, tail = c :: rest →
     isDecimalDigit c = false ∧ c ≠ 46%N ∧ c ≠ 101%N ∧ c ≠ 69%N) →
  visitCell row ticketName acc date =
    acc ++ [{| Date := date; Ticket := ticketName;
               TimeSpent :=
                 of_Z (Z.of_N (MV (List.map (λ c, c - 48)%N (d :: digits)))) |}].
Proof.
  intros Hown Hdigits Hnonzero Htail.
  destruct (MV_positive _ Hdigits Hnonzero) as [p Hp].
  assert (parseFloat (Get row date) = of_Z (Z.of_N (Npos p))) as Hparse.
  { rewrite (parseFloat_own _ _ _ Hown), parseFloatString_integer;
      [|exact Hdigits|intros c rest Hc; destruct (Htail c rest Hc); tauto].
    rewrite Hp, ExponentPart_none
      by (intros c rest Hc; destruct (Htail c rest Hc); tauto).
    unfold Number_of_decimal, of_Z. simpl binary_normalize.
    change (Z.to_pos (10 ^ 0)) with 1%positive. by rewrite Pos.mul_1_r. }
  rewrite Hp, <- Hparse. apply visitCell_accepted.
  rewrite Hparse. apply binary_round_positive.
Qed.

(** X14. A cell that holds a decimal number other than zero, written as digits, a
    point and at most 323 further digits, is always billed, with the nearest
    binary64 as TimeSpent. *)
Theorem positive_decimal_cell_emitted
    (row : Object) (date : jsstring) (ticketName : value)
    (acc : list OutputRecord) (d : N) (digits fdigits tail : jsstring) :
  getOwnProperty row date = Some ((d :: digits) ++ 46%N :: fdigits ++ tail) →
  Forall (λ c, isDecimalDigit c = true) (d :: digits) →
  Forall (λ c, isDecimalDigit c = true) fdigits →
  Exists (λ c, c ≠ 48%N) ((d :: digits) ++ fdigits) →
  (length fdigits <= 323)%nat →
  (∀ c rest, tail = c :: rest →
     isDecimalDigit c = false ∧ c ≠ 101%N ∧ c ≠ 69%N) →
  visitCell row ticketName acc date =
    acc ++ [{| Date := date; Ticket := ticketName;
               TimeSpent :=
                 Number_of_decimal false
                   (MV (List.map (λ c, c - 48)%N ((d :: digits) ++ fdigits)))
                   (- Z.of_nat (length fdigits)) |}].
Proof.
  intros Hown Hdigits Hfdigits Hnonzero Hlen Htail.
  assert (Forall (λ c, isDecimalDigit c = true) ((d :: digits) ++ fdigits))
    as Hall by (apply Forall_app; by split).
  destruct (MV_positive _ Hall Hnonzero) as [p Hp].
  assert (parseFloat (Get row date) =
          Number_of_decimal false (Npos p) (- Z.of_nat (length fdigits)))
    as Hparse.
  { rewrite (parseFloat_own _ _ _ Hown), parseFloatString_fraction;
      [|exact Hdigits|exact Hfdigits
       |intros c rest Hc; destruct (Htail c rest Hc); tauto].
    rewrite Hp, ExponentPart_none
      by (intros c rest Hc; destruct (Htail c rest Hc); tauto).
    reflexivity. }
  rewrite Hp, <- Hparse. apply visitCell_accepted.
  rewrite Hparse. apply Number_of_decimal_positive. right.
  rewrite Z.opp_involutive.
  apply Z.le_trans with (10 ^ 323).
  - apply Z.pow_le_mono_r; lia.
  - apply Z.le_trans with (1 * 2 ^ 1074); [by vm_compute|].
    apply Z.mul_le_mono_nonneg_r; [by vm_compute|lia].
Qed.

Lemma positive_integer_cell_emitted_witness :
  getOwnProperty Samples.rowOdd (str "h") =
    Some ((49%N :: str "2") ++ str " hours")
  ∧ Forall (λ c, isDecimalDigit c = true) (49%N :: str "2")
  ∧ Exists (λ c, c ≠ 48%N) (49%N :: str "2")
  ∧ visitCell Samples.rowOdd (Str (str "T9")) [] (str "h") =
      [] ++ [{| Date := str "h"; Ticket := Str (str "T9");
                TimeSpent :=
                  of_Z (Z.of_N (MV (List.map (λ c, c - 48)%N
                                      (49%N :: str "2")))) |}].
Proof.
  assert (Forall (λ c, isDecimalDigit c = true) (49%N :: str "2")) as Hdigits
    by (repeat constructor).
  assert (Exists (λ c, c ≠ 48%N) (49%N :: str "2")) as Hnonzero
    by (apply Exists_cons_hd; discriminate).
  split; [reflexivity|]. split; [exact Hdigits|]. split; [exact Hnonzero|].
  refine (positive_integer_cell_emitted Samples.rowOdd (str "h")
            (Str (str "T9")) [] 49%N (str "2") (str " hours")
            eq_refl Hdigits Hnonzero _).
  intros c rest Hc. injection Hc as <- _.
  split; [reflexivity|]. repeat split; discriminate.
Defined.

Lemma positive_decimal_cell_emitted_witness :
  getOwnProperty Samples.rowT2 Samples.day2 =
    Some ((51%N :: []) ++ 46%N :: str "5" ++ [])
  ∧ Forall (λ c, isDecimalDigit c = true) (str "5")
  ∧ Exists (λ c, c ≠ 48%N) ((51%N :: []) ++ str "5")
  ∧ (length (str "5") <= 323)%nat
  ∧ visitCell Samples.rowT2 (Str (str "T2")) [] Samples.day2 =
      [] ++ [{| Date := Samples.day2; Ticket := Str (str "T2");
                TimeSpent :=
                  Number_of_decimal false
                    (MV (List.map (λ c, c - 48)%N ((51%N :: []) ++ str "5")))
                    (- Z.of_nat (length (str "5"))) |}].
Proof.
  assert (Forall (λ c, isDecimalDigit c = true) [51%N]) as Hdigits
    by (repeat constructor).
  assert (Forall (λ c, isDecimalDigit c = true) (str "5")) as Hfdigits
    by (repeat constructor).
  assert (Exists (λ c, c ≠ 48%N) ((51%N :: []) ++ str "5")) as Hnonzero
    by (apply Exists_cons_hd; discriminate).
  assert (length (str "5") <= 323)%nat as Hlen by (vm_compute; lia).
  split; [reflexivity|]. split; [exact Hfdigits|]. split; [exact Hnonzero|].
  split; [exact Hlen|].
  refine (positive_decimal_cell_emitted Samples.rowT2 Samples.day2
            (Str (str "T2")) [] 51%N [] (str "5") []
            eq_refl Hdigits Hfdigits Hnonzero Hlen _).
  intros c rest Hc. discriminate Hc.
Defined.

End Rounding.

(** X15. A cell whose text, after white space, starts with anything but a sign, a
    digit, a point or the letter I is skipped: plain words are never
    billed. *)
Theorem text_cell_skipped
    (row : Object) (date : jsstring) (ticketName : value)
    (acc : list OutputRecord) (blank : jsstring) (c : N) (rest : jsstring) :
  getOwnProperty row date = Some (blank ++ c :: rest) →
  Forall (λ b, isWhiteSpace b = true) blank →
  isWhiteSpace c = false →
  isDecimalDigit c = false →
  c ≠ 43%N → c ≠ 45%N → c ≠ 46%N → c ≠ 73%N →
  isNaN (parseFloat (Get row date)) = true
  ∧ visitCell row ticketName acc date = acc.
Proof.
  intros Hown Hblank Hspace Hdigit Hplus%N.eqb_neq Hminus%N.eqb_neq
    Hpoint%N.eqb_neq HI.
  assert ((73 =? c)%N = false) as HI' by (apply N.eqb_neq; congruence).
  assert (isNaN (parseFloat (Get row date)) = true) as Hnan.
  { rewrite (parseFloat_own _ _ _ Hown). unfold parseFloatString.
    rewrite (TrimStart_app _ _ Hblank). cbn [TrimStart]. rewrite Hspace.
    unfold Sign. rewrite Hplus, Hminus. unfold StrUnsignedDecimalLiteral.
    change (str "Infinity") with (73%N :: str "nfinity").
    cbn [startsWith]. rewrite HI'. cbn [andb DecimalDigits].
    rewrite Hdigit. unfold FractionPart. rewrite Hpoint. reflexivity. }
  split; [exact Hnan|]. apply visitCell_rejected. by left.
Qed.

Lemma text_cell_skipped_witness :
  getOwnProperty Samples.rowOdd (str "f") = Some ([] ++ 110%N :: str "/a")
  ∧ isNaN (parseFloat (Get Samples.rowOdd (str "f"))) = true
  ∧ visitCell Samples.rowOdd (Str (str "T9")) [] (str "f") = [].
Proof.
  split; [reflexivity|].
  refine (text_cell_skipped Samples.rowOdd (str "f") (Str (str "T9")) []
            [] 110%N (str "/a") eq_refl (List.Forall_nil _)
            eq_refl eq_refl _ _ _ _); discriminate.
Defined.

(** ** Properties of processCsv *)

(** *** What is logged *)


(** *** What is written, and when *)

Import Stream.

Lemma written_logs (out : list string) : written (Log <$> out) = [].
Proof. by induction out. Qed.

Lemma written_app (effects1 effects2 : list effect) :
  written (effects1 ++ effects2) = written effects1 ++ written effects2.
Proof. apply omap_app. Qed.

Lemma deliver_app (events1 events2 : list event) :
  ∀ records,
  deliver records (events1 ++ events2) =
  deliver records events1
  ++ deliver (records ++ delivered events1) events2.
Proof.
  induction events1 as [|ev events1 IH]; intros records.
  - simpl. by rewrite app_nil_r.
  - destruct ev as [row| |err]; simpl; rewrite IH.
    + unfold onData, push. by rewrite <- app_assoc.
    + by rewrite <- !app_assoc.
    + reflexivity.
Qed.

Lemma written_without_end (events : list event) :
  Forall (λ ev, ev ≠ EndEvent) events →
  ∀ records, written (deliver records events) = [].
Proof.
  induction 1 as [|ev events Hev _ IH]; intros records; [reflexivity|].
  destruct ev as [row| |err]; [apply IH|done|apply IH].
Qed.

(** X17. Nothing is written before the stream ends: a stream that delivers rows
    and errors but no ['end'] leaves no file. When ['end'] comes, one table
    is written, the transform of the rows delivered so far, in the order of
    their delivery, whatever errors were reported in between. *)
Theorem stream_writes_at_end (events : list event) :
  Forall (λ ev, ev ≠ EndEvent) events →
  written (run events) = []
  ∧ written (run (events ++ [EndEvent])) =
      [writeRecords header (transposed (delivered events))].
Proof.
  intros Hevents. unfold run. split; [by apply written_without_end|].
  rewrite deliver_app, written_app, written_without_end by done.
  simpl. rewrite app_nil_r, written_app, written_logs. simpl.
  unfold onEnd, transposed.
  by destruct (transposeData (delivered events)).
Qed.

Lemma stream_writes_at_end_witness :
  Forall (λ ev, ev ≠ EndEvent)
    [DataEvent Samples.rowT1; ErrorEvent "EIO"; DataEvent Samples.rowT2]
  ∧ written (run [DataEvent Samples.rowT1; ErrorEvent "EIO";
                  DataEvent Samples.rowT2]) = []
  ∧ written (run ([DataEvent Samples.rowT1; ErrorEvent "EIO";
                   DataEvent Samples.rowT2] ++ [EndEvent])) =
      [writeRecords header (transposed Samples.sheet)].
Proof.
  assert (Forall (λ ev, ev ≠ EndEvent)
            [DataEvent Samples.rowT1; ErrorEvent "EIO";
             DataEvent Samples.rowT2]) as Hevents
    by (repeat constructor; discriminate).
  split; [exact Hevents|].
  exact (stream_writes_at_end _ Hevents).
Defined.
